(** * EV fleet telematics workflow (Code.py)

    A shallow embedding of the four functions of the workflow that carry
    data semantics:

    - [make_operational_decisions] (step 4, lines 77-85),
    - [remote_control]             (step 5, lines 97-104),
    - [continuous_improvement]     (step 6, lines 115-126),
    - [calculate_roi]              (step 7, lines 136-141).

    Python values are modelled as the code has them: an [int] is a [Z], a
    [float] is an IEEE 754 binary64 number (Rocq's primitive [float]), a [str]
    is a [string], the telemetry dict is a record with its seven keys, and the
    pandas frame is a list of rows with its column labels.  [print] appends a
    line to standard output, which is threaded through the functions that
    print; a Python exception ends the computation with [Raise]. *)

From Stdlib Require Import ZArith List String Ascii Lia DecimalString.
From Stdlib Require Import DecimalPos DecimalZ.
From Stdlib Require Import Floats.PrimFloat Floats.SpecFloat Floats.FloatOps.
From Stdlib Require Import Floats.FloatAxioms.
From stdpp Require Import gmap strings.

Open Scope Z_scope.

(** ** Python numbers *)

Module PyNum.

(** An [int] read as an unrounded binary number [m * 2^0]. *)
Definition SF_of_int (z : Z) : spec_float :=
  match z with
  | Z0 => S754_zero false
  | Zpos p => S754_finite false p 0
  | Zneg p => S754_finite true p 0
  end.

(** The binary64 nearest to [a / b] (ties to even), for [b <> 0]:
    what [int.__truediv__] computes before it looks at the range.
    The zero quotient takes the sign of [b], as CPython's does. *)
Definition nearest_quotient (a b : Z) : spec_float :=
  SFdiv prec emax (SF_of_int a) (SF_of_int b).

(** [float(z)], for an [int] in the range of binary64. *)
Definition float_of_int (z : Z) : float :=
  SF2Prim (binary_normalize prec emax z 0 false).

Definition is_nan (f : float) : bool := negb (PrimFloat.eqb f f).

Definition is_infinity (f : spec_float) : bool :=
  match f with
  | S754_infinity _ => true
  | _ => false
  end.

End PyNum.

(** ** Exceptions and outcomes *)

Inductive exn : Type :=
| KeyError (key : string)
| ZeroDivisionError
| OverflowError.

(** The class name of an exception, as [type(e).__name__] gives it. *)
Definition exn_name (e : exn) : string :=
  match e with
  | KeyError _ => "KeyError"
  | ZeroDivisionError => "ZeroDivisionError"
  | OverflowError => "OverflowError"
  end.

Inductive outcome (A : Type) : Type :=
| Return (a : A)
| Raise (e : exn).
Arguments Return {A} a.
Arguments Raise {A} e.

Definition outcome_bind {A B : Type} (m : outcome A) (k : A -> outcome B) : outcome B :=
  match m with
  | Return a => k a
  | Raise e => Raise e
  end.

Declare Scope outcome_scope.
Delimit Scope outcome_scope with outcome.
Notation "'try' x <- m ; k" := (outcome_bind m (fun x => k))
  (at level 100, x name, m at next level, k at level 200,
   right associativity) : outcome_scope.

(** [a / b] on two ints: [ZeroDivisionError] for a zero divisor, otherwise
    the correctly rounded quotient, or [OverflowError] ("integer division
    result too large for a float") when that is beyond binary64. *)
Definition int_truediv (a b : Z) : outcome float :=
  if b =? 0 then Raise ZeroDivisionError
  else
    match PyNum.nearest_quotient a b with
    | S754_infinity _ => Raise OverflowError
    | q => Return (SF2Prim q)
    end.

(** [x * n] for a float [x] and an int [n] of the float range. *)
Definition float_mul_int (x : float) (n : Z) : float :=
  PrimFloat.mul x (PyNum.float_of_int n).

(** ** Step 7: cost management and ROI (lines 136-141)

    The arguments are ints, as at the call site (lines 144-149). *)
Definition calculate_roi
  (initial_investment maintenance_costs fuel_savings charging_costs : Z)
  : outcome float :=
  let savings := fuel_savings - charging_costs in
  let net_profit := savings - maintenance_costs in
  (try q <- int_truediv net_profit initial_investment;
   let roi := float_mul_int q 100 in
   Return roi)%outcome.

(** ** Standard output

    A printed line is kept as text where it is made of strings and ints.
    The two report lines of [continuous_improvement] interpolate a float and
    a list: they keep the interpolated value itself. *)

Inductive vehicle_id : Type :=
| IdInt (n : Z)
| IdStr (s : string).

(** [str(ev_id)], as an f-string interpolates it. *)
Definition str (v : vehicle_id) : string :=
  match v with
  | IdInt n => NilZero.string_of_int (Z.to_int n)
  | IdStr s => s
  end.

Inductive line : Type :=
| Str (s : string)
| AverageBatteryLevel (avg_battery : float)
    (* f"Average Battery Level Across Fleet: {avg_battery}%" *)
| LowBatteryEVs (ids : list vehicle_id).
    (* f"EVs with low battery: {ids}" *)

Definition stdout : Type := list line.

Definition py (A : Type) : Type := stdout -> outcome A * stdout.

Definition ret {A : Type} (a : A) : py A := fun out => (Return a, out).

Definition bind {A B : Type} (m : py A) (k : A -> py B) : py B :=
  fun out =>
    match m out with
    | (Return a, out') => k a out'
    | (Raise e, out') => (Raise e, out')
    end.

Definition lift {A : Type} (o : outcome A) : py A := fun out => (o, out).

Definition print (l : line) : py unit := fun out => (Return tt, out ++ [l]).

Declare Scope py_scope.
Delimit Scope py_scope with py.
Notation "x <- m ;; k" := (bind m (fun x => k))
  (at level 100, m at next level, k at level 200, right associativity) : py_scope.
Notation "m ;; k" := (bind m (fun _ => k))
  (at level 100, k at level 200, right associativity) : py_scope.

(** ** Step 1: the telemetry record (lines 14-23) *)

Record coordinates : Type := { lat : float; long : float }.

Inductive charge : Type := charging | discharging.

Record ev_data : Type := {
  ev_id : vehicle_id;
  battery_level : Z;
  location : coordinates;
  speed : float;
  temperature : float;
  charge_status : charge;
  timestamp : float
}.

(** [x > n] for a float [x] and an int [n] that binary64 holds exactly. *)
Definition float_gt_int (x : float) (n : Z) : bool :=
  PrimFloat.ltb (PyNum.float_of_int n) x.

(** ** Step 4: operational decision making (lines 77-85) *)
Definition make_operational_decisions (ev_data : ev_data) : py unit :=
  if battery_level ev_data <? 20 then
    print (Str ("EV " +:+ str (ev_id ev_data)
                +:+ " needs charging. Routing to nearest station."))
  else if float_gt_int (speed ev_data) 70 then
    print (Str ("EV " +:+ str (ev_id ev_data)
                +:+ " is speeding. Reduce speed to conserve battery."))
  else
    print (Str ("EV " +:+ str (ev_id ev_data) +:+ " is operating normally.")).

(** ** Step 5: automation and remote control (lines 97-104) *)
Definition remote_control (ev_id : vehicle_id) (action : string) : string :=
  let actions : gmap string string :=
    {[ "start_charging" := "EV " +:+ str ev_id +:+ " started charging.";
       "stop_charging" := "EV " +:+ str ev_id +:+ " stopped charging.";
       "reduce_speed" := "EV " +:+ str ev_id +:+ " speed reduced." ]} in
  default "Invalid action" (actions !! action).

(** ** Step 3: the pandas frame (lines 55-63)

    What [continuous_improvement] uses of pandas: a frame is its column
    labels and its rows in index order.  Built from a list of telemetry
    dicts it has their seven keys as columns; built from the empty list it
    has no column at all.  Selecting rows keeps the columns, so a frame can
    have columns and no row. *)

Record DataFrame : Type := {
  columns : list string;
  rows : list ev_data
}.

Definition ev_data_keys : list string :=
  ["ev_id"; "battery_level"; "location"; "speed"; "temperature";
   "charge_status"; "timestamp"]%string.

(** [pd.DataFrame(data)] for a list of telemetry dicts. *)
Definition pd_DataFrame (data : list ev_data) : DataFrame :=
  match data with
  | [] => {| columns := []; rows := [] |}
  | _ :: _ => {| columns := ev_data_keys; rows := data |}
  end.

(** [key in df.columns] *)
Definition has_column (df : DataFrame) (key : string) : bool :=
  existsb (String.eqb key) (columns df).

(** [df[key]]: the column as a series, [KeyError] when there is no such
    column.  [field] reads the dict entry of that key. *)
Definition getitem {A : Type} (df : DataFrame) (key : string)
  (field : ev_data -> A) : outcome (list A) :=
  if has_column df key
  then Return (map field (rows df))
  else Raise (KeyError key).

(** [series < n]: the element-wise comparison. *)
Definition series_lt (s : list Z) (n : Z) : list bool :=
  map (fun b => b <? n) s.

(** [df[mask]]: the rows whose mask entry is [True], in index order. *)
Fixpoint boolean_index (rs : list ev_data) (mask : list bool) : list ev_data :=
  match rs, mask with
  | r :: rs', b :: mask' =>
      if b then r :: boolean_index rs' mask' else boolean_index rs' mask'
  | _, _ => []
  end.

Definition getitem_mask (df : DataFrame) (mask : list bool) : DataFrame :=
  {| columns := columns df; rows := boolean_index (rows df) mask |}.

(** [series.mean()] of a column of battery percentages: NaN for the empty
    series, otherwise the sum divided by the count, both as binary64.  pandas
    adds the entries up in binary64; for levels within 0..100 whose sum is
    below [2^53] every partial sum is an integer that binary64 holds, so the
    sum it reaches is the exact one.  The definition is the mean of the code
    on such columns and on the empty one only: the properties of the report
    of a non-empty batch are stated for [percentages]. *)
Definition series_mean (s : list Z) : float :=
  match s with
  | [] => nan
  | _ :: _ =>
      PrimFloat.div (PyNum.float_of_int (fold_left Z.add s 0))
                    (PyNum.float_of_int (Z.of_nat (length s)))
  end.

(** [float(z)] as the IEEE description has it: [PyNum.float_of_int] is this
    number as a primitive float. *)
Definition binary64_of_int (z : Z) : spec_float :=
  binary_normalize prec emax z 0 false.

(** An order in which a sum is taken: the entries, and the additions that
    combine them two by two.  pandas adds a column up in binary64 in an order
    that depends on its length and on the libraries installed (one running
    sum, or sums of blocks that are added afterwards). *)
Inductive summation : Type :=
| Entry (z : Z)
| Add (s1 s2 : summation).

Fixpoint entries (s : summation) : list Z :=
  match s with
  | Entry z => [z]
  | Add s1 s2 => entries s1 ++ entries s2
  end.

(** The sum taken in that order, every addition rounding to binary64. *)
Fixpoint binary64_sum (s : summation) : spec_float :=
  match s with
  | Entry z => binary64_of_int z
  | Add s1 s2 => SFadd prec emax (binary64_sum s1) (binary64_sum s2)
  end.

(** A mantissa with no bit shifted out of it. *)
Definition exact_record (m : Z) : shr_record :=
  {| shr_m := m; shr_r := false; shr_s := false |}.

(** [len(df)] *)
Definition len (df : DataFrame) : Z := Z.of_nat (length (rows df)).

(** ** Step 6: continuous improvement (lines 115-126) *)
Definition continuous_improvement (df : DataFrame) : py unit :=
  (levels <- lift (getitem df "battery_level" battery_level) ;;
   let avg_battery := series_mean levels in
   print (AverageBatteryLevel avg_battery) ;;
   levels <- lift (getitem df "battery_level" battery_level) ;;
   let low_battery_ev := getitem_mask df (series_lt levels 20) in
   ids <- lift (getitem low_battery_ev "ev_id" ev_id) ;;
   print (LowBatteryEVs ids) ;;
   if 0 <? len low_battery_ev then
     print (Str "Suggestion: Increase charging frequency for low battery EVs.")
   else ret tt)%py.

(** ** Step 2: data transmission (lines 33-40)

    [requests.post] is the network.  It is given as a function from the URL
    and the telemetry that is posted to the status code of the response; the
    payload [json.dumps(ev_data)] is kept as the record it serialises. *)
Definition send_to_cloud (requests_post : string -> ev_data -> Z)
  (ev_data : ev_data) : py unit :=
  let url := "https://your-cloud-api.com/data"%string in
  let status_code := requests_post url ev_data in
  if status_code =? 200 then
    print (Str ("Data from EV " +:+ str (ev_id ev_data)
                +:+ " sent successfully."))
  else
    print (Str ("Failed to send data from EV " +:+ str (ev_id ev_data)
                +:+ ".")).

(** The loop of lines 88-89:
    [for ev in data: make_operational_decisions(ev)]. *)
Fixpoint decide_for_each (data : list ev_data) : py unit :=
  match data with
  | [] => ret tt
  | ev :: data' =>
      (make_operational_decisions ev ;; decide_for_each data')%py
  end.

(** ** The specification's vocabulary *)

(** The three recommendations of the DecisionEngine. *)
Inductive recommendation : Type :=
| route_to_charging
| reduce_speed
| normal_operation.

(** The line by which [make_operational_decisions] announces a
    recommendation for a vehicle. *)
Definition announcement (r : recommendation) : string :=
  match r with
  | route_to_charging => " needs charging. Routing to nearest station."
  | reduce_speed => " is speeding. Reduce speed to conserve battery."
  | normal_operation => " is operating normally."
  end.

Definition recommendation_line (r : recommendation) (v : vehicle_id) : line :=
  Str ("EV " +:+ str v +:+ announcement r).

(** The engine recommends [r] for a snapshot when running it prints the
    line of [r] for that vehicle, and nothing else, and returns. *)
Definition recommends (ev : ev_data) (r : recommendation) : Prop :=
  forall out : stdout,
    make_operational_decisions ev out
    = (Return tt, out ++ [recommendation_line r (ev_id ev)]).

(** The DecisionEngine as section 4.1 words it: first match wins. *)
Definition DecisionEngine (battery : Z) (speed_kmh : float) : recommendation :=
  if battery <? 20 then route_to_charging
  else if PrimFloat.ltb 70 speed_kmh then reduce_speed
  else normal_operation.

(** A computation fails with the exception class [name]. *)
Definition fails_with {A : Type} (name : string) (r : outcome A) : Prop :=
  exists e : exn, r = Raise e /\ exn_name e = name.

(** [needle] occurs in [hay]. *)
Definition contains (needle hay : string) : Prop :=
  exists pre post : string, hay = pre +:+ needle +:+ post.

(** The arithmetic mean of a list of ints, in binary64. *)
Definition arithmetic_mean (levels : list Z) : float :=
  PrimFloat.div (PyNum.float_of_int (foldr Z.add 0 levels))
                (PyNum.float_of_int (Z.of_nat (length levels))).

(** A batch of battery percentages: every level is within 0..100, as
    [collect_ev_data] draws it (line 17), and the levels add up to less than
    [2^53].  On such a batch every partial sum of the levels, in whatever
    order they are added, is an integer that binary64 holds exactly, so the
    sum pandas reaches in binary64 is the exact sum; outside this range the
    result depends on the order of the additions and an object column can
    make [mean] raise. *)
Definition percentages (batch : list ev_data) : Prop :=
  Forall (fun ev => 0 <= battery_level ev <= 100) batch
  /\ foldr Z.add 0 (map battery_level batch) < 2 ^ 53.

(** The snapshots of a batch that are low on battery, in batch order. *)
Definition low_battery (batch : list ev_data) : list ev_data :=
  List.filter (fun ev => battery_level ev <? 20) batch.

Definition suggestion_line : line :=
  Str "Suggestion: Increase charging frequency for low battery EVs.".

(** The report of a frame that has the two columns the function reads. *)
Definition report (rs : list ev_data) : stdout :=
  AverageBatteryLevel (series_mean (map battery_level rs))
  :: LowBatteryEVs (map ev_id (low_battery rs))
  :: (if 0 <? Z.of_nat (length (low_battery rs)) then [suggestion_line] else []).

(** The action names the dispatcher knows. *)
Definition recognized_actions : list string :=
  ["start_charging"; "stop_charging"; "reduce_speed"]%string.

(** The two lines by which [send_to_cloud] reports on a transmission. *)
Definition sent_line (v : vehicle_id) : line :=
  Str ("Data from EV " +:+ str v +:+ " sent successfully.").

Definition failed_line (v : vehicle_id) : line :=
  Str ("Failed to send data from EV " +:+ str v +:+ ".").

(** The line the engine prints for a snapshot. *)
Definition decision_line (ev : ev_data) : line :=
  recommendation_line (DecisionEngine (battery_level ev) (speed ev)) (ev_id ev).

(** ** Sample data *)

(** A snapshot of vehicle [v] with battery level [b] and speed [s]. *)
Definition snapshot (v b : Z) (s : float) : ev_data :=
  {| ev_id := IdInt v;
     battery_level := b;
     location := {| lat := 34.5; long := (-117.25) |};
     speed := s;
     temperature := 21.5;
     charge_status := discharging;
     timestamp := 1700000000 |}.

Definition batch_10_30_50 : list ev_data :=
  [snapshot 101 10 40; snapshot 102 30 55; snapshot 103 50 65].

Definition batch_mixed : list ev_data :=
  [snapshot 7 15 72; snapshot 8 64 30; snapshot 9 3 0; snapshot 10 20 71].

Definition batch_charged : list ev_data :=
  [snapshot 1 20 10; snapshot 2 99 20].

(** The levels of [batch_mixed], added up in another order, one of the
    partial sums starting at zero. *)
Definition sum_mixed : summation :=
  Add (Add (Entry 3) (Entry 64)) (Add (Add (Entry 0) (Entry 20)) (Entry 15)).

(** A frame with the telemetry columns and no row, as a selection that
    matches nothing leaves it. *)
Definition no_rows : DataFrame :=
  {| columns := ev_data_keys; rows := [] |}.

(** * Properties *)

(** ** Auxiliary facts *)

Lemma float_of_int_70 : PyNum.float_of_int 70 = 70%float.
Proof. reflexivity. Qed.

Lemma float_of_int_100 : PyNum.float_of_int 100 = 100%float.
Proof. reflexivity. Qed.

Lemma append_inv_head (s a b : string) : s +:+ a = s +:+ b -> a = b.
Proof.
  induction s as [|ch s IH]; simpl; intros H; [exact H|].
  injection H as H. auto.
Qed.

Lemma announcement_inj (r1 r2 : recommendation) :
  announcement r1 = announcement r2 -> r1 = r2.
Proof. destruct r1, r2; simpl; intros H; try reflexivity; discriminate H. Qed.

Lemma recommendation_line_inj (v : vehicle_id) (r1 r2 : recommendation) :
  recommendation_line r1 v = recommendation_line r2 v -> r1 = r2.
Proof.
  unfold recommendation_line. intros H.
  assert (H' : "EV " +:+ str v +:+ announcement r1
               = "EV " +:+ str v +:+ announcement r2) by congruence.
  apply announcement_inj.
  apply (append_inv_head (str v)), (append_inv_head "EV "). exact H'.
Qed.

(** What the engine prints is the line of the recommendation that the
    priority order selects. *)
Lemma make_operational_decisions_run (ev : ev_data) (out : stdout) :
  make_operational_decisions ev out
  = (Return tt,
     out ++ [recommendation_line
               (DecisionEngine (battery_level ev) (speed ev)) (ev_id ev)]).
Proof.
  unfold make_operational_decisions, DecisionEngine, float_gt_int.
  rewrite float_of_int_70.
  destruct (battery_level ev <? 20); [reflexivity|].
  destruct (PrimFloat.ltb 70 (speed ev)); reflexivity.
Qed.

Lemma recommends_DecisionEngine (ev : ev_data) :
  recommends ev (DecisionEngine (battery_level ev) (speed ev)).
Proof. intros out. apply make_operational_decisions_run. Qed.

Lemma recommends_unique (ev : ev_data) (r : recommendation) :
  recommends ev r -> r = DecisionEngine (battery_level ev) (speed ev).
Proof.
  intros H. specialize (H []).
  rewrite make_operational_decisions_run in H. simpl in H.
  symmetry. apply (recommendation_line_inj (ev_id ev)). congruence.
Qed.

Lemma boolean_index_series_lt (rs : list ev_data) (n : Z) :
  boolean_index rs (series_lt (map battery_level rs) n)
  = List.filter (fun ev => battery_level ev <? n) rs.
Proof.
  induction rs as [|r rs IH]; simpl; [reflexivity|].
  rewrite IH. reflexivity.
Qed.

Lemma fold_left_add (l : list Z) (a : Z) :
  fold_left Z.add l a = a + foldr Z.add 0 l.
Proof.
  revert a. induction l as [|x l IH]; intros a; simpl; [lia|].
  rewrite IH. lia.
Qed.

Lemma series_mean_nonempty (s : list Z) :
  s <> [] -> series_mean s = arithmetic_mean s.
Proof.
  destruct s as [|x s]; [congruence|]. intros _.
  unfold series_mean, arithmetic_mean.
  rewrite fold_left_add, Z.add_0_l. reflexivity.
Qed.

Lemma continuous_improvement_run (df : DataFrame) (out : stdout) :
  continuous_improvement df out
  = if has_column df "battery_level" then
      if has_column df "ev_id" then
        (Return tt, out ++ report (rows df))
      else
        (Raise (KeyError "ev_id"),
         out ++ [AverageBatteryLevel
                   (series_mean (map battery_level (rows df)))])
    else (Raise (KeyError "battery_level"), out).
Proof.
  unfold continuous_improvement, bind, lift, getitem.
  destruct (has_column df "battery_level"); [|reflexivity].
  unfold print, ret, len, report, low_battery.
  change (has_column (getitem_mask df ?m) ?k) with (has_column df k).
  destruct (has_column df "ev_id"); [|reflexivity].
  cbn [getitem_mask rows].
  rewrite boolean_index_series_lt.
  destruct (0 <? Z.of_nat (length (List.filter _ (rows df))));
    rewrite <- !app_assoc; reflexivity.
Qed.

Lemma continuous_improvement_batch (batch : list ev_data) (out : stdout) :
  batch <> [] ->
  continuous_improvement (pd_DataFrame batch) out
  = (Return tt, out ++ report batch).
Proof.
  destruct batch as [|ev batch]; [congruence|]. intros _.
  rewrite continuous_improvement_run. reflexivity.
Qed.

Lemma not_fails_with_EmptyBatch {A : Type} (r : outcome A) :
  ~ fails_with "EmptyBatch" r.
Proof. intros [e [_ He]]. destruct e; discriminate He. Qed.

(** ** Step 4: the decision engine *)

(** C3: for every snapshot the engine yields exactly one of the three
    recommendations, chosen in priority order: battery level below 20 gives
    [route_to_charging] whatever the speed; otherwise a speed above 70 gives
    [reduce_speed]; otherwise [normal_operation]. *)
Theorem decision_priority_order (ev : ev_data) :
  (exists r : recommendation,
      recommends ev r /\ forall r' : recommendation, recommends ev r' -> r' = r)
  /\ (battery_level ev < 20 -> recommends ev route_to_charging)
  /\ (20 <= battery_level ev -> PrimFloat.ltb 70 (speed ev) = true ->
      recommends ev reduce_speed)
  /\ (20 <= battery_level ev -> PrimFloat.ltb 70 (speed ev) = false ->
      recommends ev normal_operation).
Proof.
  pose proof (recommends_DecisionEngine ev) as Hrec.
  split; [|split; [|split]].
  - exists (DecisionEngine (battery_level ev) (speed ev)).
    split; [exact Hrec|]. intros r'. apply recommends_unique.
  - intros Hlow. unfold DecisionEngine in Hrec.
    apply Z.ltb_lt in Hlow. rewrite Hlow in Hrec. exact Hrec.
  - intros Hok Hfast. unfold DecisionEngine in Hrec.
    apply Z.ltb_ge in Hok. rewrite Hok, Hfast in Hrec. exact Hrec.
  - intros Hok Hslow. unfold DecisionEngine in Hrec.
    apply Z.ltb_ge in Hok. rewrite Hok, Hslow in Hrec. exact Hrec.
Qed.

Lemma decision_priority_order_witness :
  recommends (snapshot 101 5 80) route_to_charging
  /\ recommends (snapshot 102 55 80) reduce_speed
  /\ recommends (snapshot 103 55 42.5) normal_operation.
Proof.
  split; [|split].
  - apply (proj1 (proj2 (decision_priority_order (snapshot 101 5 80)))).
    reflexivity.
  - apply (proj1 (proj2 (proj2 (decision_priority_order (snapshot 102 55 80)))));
      [discriminate | reflexivity].
  - apply (proj2 (proj2 (proj2 (decision_priority_order (snapshot 103 55 42.5)))));
      [discriminate | reflexivity].
Defined.

(** C4: both thresholds are strict.  Battery level 20 at speed 0 gives
    [normal_operation] and battery level 19 gives [route_to_charging];
    battery level 100 at speed 70 gives [normal_operation] and speed 71 gives
    [reduce_speed], whatever the other five fields are. *)
Theorem decision_thresholds_strict (v : vehicle_id) (loc : coordinates)
  (temp : float) (status : charge) (ts : float) :
  recommends (Build_ev_data v 20 loc 0 temp status ts) normal_operation
  /\ recommends (Build_ev_data v 19 loc 0 temp status ts) route_to_charging
  /\ recommends (Build_ev_data v 100 loc 70 temp status ts) normal_operation
  /\ recommends (Build_ev_data v 100 loc 71 temp status ts) reduce_speed.
Proof.
  repeat split; intros out; rewrite make_operational_decisions_run;
    reflexivity.
Qed.

(** C10: the recommendation depends on the battery level and the speed only.
    Two snapshots that agree on these two fields get the same
    recommendation, whatever their identifier, location, temperature, charge
    status and timestamp are. *)
Theorem decision_reads_battery_and_speed_only (ev1 ev2 : ev_data) :
  battery_level ev1 = battery_level ev2 ->
  speed ev1 = speed ev2 ->
  forall r : recommendation, recommends ev1 r <-> recommends ev2 r.
Proof.
  intros Hb Hs r. split; intros H.
  - apply recommends_unique in H. subst r. rewrite Hb, Hs.
    apply recommends_DecisionEngine.
  - apply recommends_unique in H. subst r. rewrite <- Hb, <- Hs.
    apply recommends_DecisionEngine.
Qed.

Lemma decision_reads_battery_and_speed_only_witness :
  recommends (snapshot 101 12 75) route_to_charging
  <-> recommends
        {| ev_id := IdStr "EV-9";
           battery_level := 12;
           location := {| lat := 35.75; long := (-116.5) |};
           speed := 75;
           temperature := 29;
           charge_status := charging;
           timestamp := 42 |}
        route_to_charging.
Proof.
  apply (decision_reads_battery_and_speed_only (snapshot 101 12 75));
    reflexivity.
Defined.

(** ** Step 5: the remote-control dispatcher *)

Lemma contains_infix (pre needle post : string) :
  contains needle (pre +:+ needle +:+ post).
Proof. exists pre, post. reflexivity. Qed.

Lemma remote_control_start_charging (v : vehicle_id) :
  remote_control v "start_charging" = "EV " +:+ str v +:+ " started charging.".
Proof. unfold remote_control. rewrite lookup_insert_eq. reflexivity. Qed.

Lemma remote_control_stop_charging (v : vehicle_id) :
  remote_control v "stop_charging" = "EV " +:+ str v +:+ " stopped charging.".
Proof.
  unfold remote_control.
  rewrite lookup_insert_ne by discriminate.
  rewrite lookup_insert_eq. reflexivity.
Qed.

Lemma remote_control_reduce_speed (v : vehicle_id) :
  remote_control v "reduce_speed" = "EV " +:+ str v +:+ " speed reduced.".
Proof.
  unfold remote_control.
  rewrite !lookup_insert_ne by discriminate.
  rewrite lookup_singleton_eq. reflexivity.
Qed.

Lemma remote_control_unrecognized (v : vehicle_id) (action : string) :
  ~ In action recognized_actions ->
  remote_control v action = "Invalid action".
Proof.
  intros Hout. unfold remote_control.
  rewrite !lookup_insert_ne, lookup_singleton_ne; [reflexivity | | |];
    intros <-; apply Hout; simpl; auto.
Qed.

(** C6: for every vehicle identifier, each of the three recognized actions
    returns its templated description, in which the identifier occurs, and
    every other action name returns the sentinel string; the function
    returns a string in all cases and raises nothing. *)
Theorem remote_control_dispatch (v : vehicle_id) :
  remote_control v "start_charging" = "EV " +:+ str v +:+ " started charging."
  /\ remote_control v "stop_charging" = "EV " +:+ str v +:+ " stopped charging."
  /\ remote_control v "reduce_speed" = "EV " +:+ str v +:+ " speed reduced."
  /\ (forall action : string,
         In action recognized_actions ->
         contains (str v) (remote_control v action))
  /\ (forall action : string,
         ~ In action recognized_actions ->
         remote_control v action = "Invalid action").
Proof.
  split; [apply remote_control_start_charging|].
  split; [apply remote_control_stop_charging|].
  split; [apply remote_control_reduce_speed|].
  split; [|apply remote_control_unrecognized].
  intros action Hin. simpl in Hin.
  destruct Hin as [<-|[<-|[<-|[]]]].
  - rewrite remote_control_start_charging. apply contains_infix.
  - rewrite remote_control_stop_charging. apply contains_infix.
  - rewrite remote_control_reduce_speed. apply contains_infix.
Qed.

Lemma remote_control_dispatch_witness :
  contains "101" (remote_control (IdInt 101) "start_charging")
  /\ contains "started charging" (remote_control (IdInt 101) "start_charging")
  /\ remote_control (IdInt 101) "fly" = "Invalid action".
Proof.
  split; [|split].
  - apply (proj1 (proj2 (proj2 (proj2
             (remote_control_dispatch (IdInt 101))))) "start_charging").
    simpl. auto.
  - exists "EV 101 ", ".". reflexivity.
  - apply (proj2 (proj2 (proj2 (proj2
             (remote_control_dispatch (IdInt 101))))) "fly").
    simpl. intros [H|[H|[H|[]]]]; discriminate H.
Defined.

(** ** Step 6: the fleet aggregator *)

Lemma low_battery_sublist (batch : list ev_data) :
  sublist (low_battery batch) batch.
Proof.
  unfold low_battery. induction batch as [|ev batch IH]; simpl.
  - constructor.
  - destruct (battery_level ev <? 20); constructor; exact IH.
Qed.

Lemma low_battery_In (batch : list ev_data) (ev : ev_data) :
  In ev (low_battery batch) <-> In ev batch /\ battery_level ev < 20.
Proof.
  unfold low_battery. rewrite filter_In, Z.ltb_lt. reflexivity.
Qed.

(** C1, as the code has it: on a frame without rows the function raises no
    [EmptyBatch] error.  With the two columns it reads it returns, after
    reporting a NaN mean and an empty low-battery list, without a suggestion;
    without the [battery_level] column it fails with [KeyError] before it
    prints anything; with that column but no [ev_id] column it prints the NaN
    mean and fails with [KeyError]. *)
Theorem continuous_improvement_empty_batch (df : DataFrame) (out : stdout) :
  rows df = [] ->
  continuous_improvement df out
  = (if has_column df "battery_level" then
       if has_column df "ev_id" then
         (Return tt, out ++ [AverageBatteryLevel nan; LowBatteryEVs []])
       else (Raise (KeyError "ev_id"), out ++ [AverageBatteryLevel nan])
     else (Raise (KeyError "battery_level"), out))
  /\ ~ fails_with "EmptyBatch" (fst (continuous_improvement df out)).
Proof.
  intros Hrows. split; [|apply not_fails_with_EmptyBatch].
  rewrite continuous_improvement_run, Hrows. reflexivity.
Qed.

Lemma continuous_improvement_empty_batch_witness :
  rows no_rows = []
  /\ continuous_improvement no_rows []
     = (Return tt, [AverageBatteryLevel nan; LowBatteryEVs []])
  /\ ~ fails_with "EmptyBatch" (fst (continuous_improvement no_rows [])).
Proof.
  split; [reflexivity|].
  apply (continuous_improvement_empty_batch no_rows []). reflexivity.
Defined.

(** C1, as the specification words it, fails: the empty batch does not make
    the function fail with [EmptyBatch].  The frame with columns and no row
    is reported on with a NaN mean, and the frame built from the empty list
    of records fails with [KeyError]. *)
Lemma empty_batch_is_not_rejected :
  (continuous_improvement no_rows []
   = (Return tt, [AverageBatteryLevel nan; LowBatteryEVs []])
   /\ PyNum.is_nan nan = true
   /\ ~ fails_with "EmptyBatch" (fst (continuous_improvement no_rows [])))
  /\ (continuous_improvement (pd_DataFrame []) []
      = (Raise (KeyError "battery_level"), [])
      /\ ~ fails_with "EmptyBatch"
           (fst (continuous_improvement (pd_DataFrame []) []))).
Proof.
  repeat split; try reflexivity; apply not_fails_with_EmptyBatch.
Qed.

(** C7: for every non-empty batch of battery percentages the function
    returns and the mean it reports is the arithmetic mean of the battery
    levels of the batch; on the batch with levels 10, 30 and 50 the mean is
    30.0 and the low-battery list holds the vehicle with level 10 only. *)
Theorem mean_battery_is_arithmetic_mean :
  (forall (batch : list ev_data) (out : stdout),
      batch <> [] ->
      percentages batch ->
      exists rest : stdout,
        continuous_improvement (pd_DataFrame batch) out
        = (Return tt,
           out ++ AverageBatteryLevel
                    (arithmetic_mean (map battery_level batch)) :: rest))
  /\ (percentages batch_10_30_50
      /\ continuous_improvement (pd_DataFrame batch_10_30_50) []
         = (Return tt,
            [AverageBatteryLevel 30; LowBatteryEVs [IdInt 101];
             suggestion_line])).
Proof.
  split.
  - intros batch out Hne _.
    rewrite continuous_improvement_batch by exact Hne.
    unfold report. rewrite series_mean_nonempty.
    + eexists. reflexivity.
    + destruct batch; [congruence | discriminate].
  - split; [|reflexivity].
    split; [repeat constructor; discriminate | reflexivity].
Qed.

Lemma mean_battery_is_arithmetic_mean_witness :
  batch_mixed <> []
  /\ percentages batch_mixed
  /\ exists rest : stdout,
       continuous_improvement (pd_DataFrame batch_mixed) []
       = (Return tt, AverageBatteryLevel 25.5 :: rest).
Proof.
  assert (Hrange : percentages batch_mixed)
    by (split; [repeat constructor; discriminate | reflexivity]).
  split; [discriminate|]. split; [exact Hrange|].
  destruct (proj1 mean_battery_is_arithmetic_mean batch_mixed [])
    as [rest Hrun]; [discriminate | exact Hrange |].
  exists rest. exact Hrun.
Defined.

(** C8: for every non-empty batch of battery percentages the low-battery
    list that is reported holds the identifiers of exactly the snapshots with
    battery level below 20, in the order in which these snapshots stand in
    the batch. *)
Theorem low_battery_set_in_batch_order (batch : list ev_data) (out : stdout) :
  batch <> [] ->
  percentages batch ->
  (exists (avg : float) (rest : stdout),
      continuous_improvement (pd_DataFrame batch) out
      = (Return tt,
         out ++ AverageBatteryLevel avg
             :: LowBatteryEVs (map ev_id (low_battery batch)) :: rest))
  /\ sublist (low_battery batch) batch
  /\ (forall ev : ev_data,
         In ev (low_battery batch) <-> In ev batch /\ battery_level ev < 20).
Proof.
  intros Hne _. split; [|split].
  - rewrite continuous_improvement_batch by exact Hne.
    unfold report. do 2 eexists. reflexivity.
  - apply low_battery_sublist.
  - apply low_battery_In.
Qed.

Lemma low_battery_set_in_batch_order_witness :
  batch_mixed <> []
  /\ percentages batch_mixed
  /\ exists (avg : float) (rest : stdout),
       continuous_improvement (pd_DataFrame batch_mixed) []
       = (Return tt,
          AverageBatteryLevel avg :: LowBatteryEVs [IdInt 7; IdInt 9] :: rest).
Proof.
  assert (Hrange : percentages batch_mixed)
    by (split; [repeat constructor; discriminate | reflexivity]).
  split; [discriminate|]. split; [exact Hrange|].
  apply (proj1 (low_battery_set_in_batch_order batch_mixed []
                  ltac:(discriminate) Hrange)).
Defined.

(** C9: for every non-empty batch of battery percentages the suggestion is
    printed if and only if the low-battery list is not empty, the
    low-battery list being the identifiers of the snapshots of the batch
    with battery level below 20: the report ends with the suggestion line
    when some snapshot is below 20, and with the low-battery list when none
    is. *)
Theorem suggestion_iff_low_battery (batch : list ev_data) (out : stdout) :
  batch <> [] ->
  percentages batch ->
  exists (avg : float) (rest : stdout),
    continuous_improvement (pd_DataFrame batch) out
    = (Return tt,
       out ++ AverageBatteryLevel avg
           :: LowBatteryEVs (map ev_id (low_battery batch)) :: rest)
    /\ (rest = [suggestion_line] /\ map ev_id (low_battery batch) <> []
        \/ rest = [] /\ map ev_id (low_battery batch) = [])
    /\ (rest = [suggestion_line]
        <-> Exists (fun ev => battery_level ev < 20) batch).
Proof.
  intros Hne _.
  rewrite continuous_improvement_batch by exact Hne.
  unfold report. do 2 eexists. split; [reflexivity|].
  rewrite List.Exists_exists.
  destruct (low_battery batch) as [|ev low] eqn:Hlow;
    cbn [length map].
  - split; [right; split; reflexivity|].
    split; [intros H; discriminate H|].
    intros [ev [Hin Hlt]].
    assert (Hev : In ev (low_battery batch))
      by (apply low_battery_In; split; assumption).
    rewrite Hlow in Hev. destruct Hev.
  - split; [left; split; [reflexivity | discriminate]|].
    split; [|intros _; reflexivity].
    intros _. exists ev. apply low_battery_In. rewrite Hlow. left. reflexivity.
Qed.

Lemma suggestion_iff_low_battery_witness :
  (batch_mixed <> []
   /\ percentages batch_mixed
   /\ exists avg : float,
        continuous_improvement (pd_DataFrame batch_mixed) []
        = (Return tt,
           [AverageBatteryLevel avg; LowBatteryEVs [IdInt 7; IdInt 9];
            suggestion_line]))
  /\ (batch_charged <> []
      /\ percentages batch_charged
      /\ exists avg : float,
           continuous_improvement (pd_DataFrame batch_charged) []
           = (Return tt, [AverageBatteryLevel avg; LowBatteryEVs []])).
Proof.
  assert (Hmixed : percentages batch_mixed)
    by (split; [repeat constructor; discriminate | reflexivity]).
  assert (Hcharged : percentages batch_charged)
    by (split; [repeat constructor; discriminate | reflexivity]).
  split; (split; [discriminate|]); (split; [assumption|]).
  - destruct (suggestion_iff_low_battery batch_mixed [] ltac:(discriminate)
                Hmixed) as (avg & rest & Hrun & [[Hrest _]|[_ Hnone]] & _).
    + exists avg. rewrite Hrun, Hrest. reflexivity.
    + discriminate Hnone.
  - destruct (suggestion_iff_low_battery batch_charged [] ltac:(discriminate)
                Hcharged) as (avg & rest & Hrun & [[_ Hsome]|[Hrest _]] & _).
    + exfalso. apply Hsome. reflexivity.
    + exists avg. rewrite Hrun, Hrest. reflexivity.
Defined.

(** ** The range of binary64

    Rounding a non-negative integer mantissa [m] with exponent [e] cannot
    overflow when [m * 2^e] is below [2^1023]; hence the quotient of two
    ints is a finite float as soon as the dividend is below [2^1023] in
    magnitude.  Adding two non-negative ints in binary64 is exact when their
    sum is below [2^53]; hence a sum of such ints is exact in every order of
    the additions. *)

Module Binary64.

Lemma Zdigits2_nonneg (m : Z) : 0 <= Zdigits2 m.
Proof. destruct m; simpl; lia. Qed.

Lemma digits2_pos_size (p : positive) : digits2_pos p = Pos.size p.
Proof. induction p; simpl; congruence. Qed.

Lemma digits2_pos_gt (p : positive) : Zpos p < 2 ^ Zpos (digits2_pos p).
Proof.
  rewrite digits2_pos_size.
  pose proof (Pos.size_gt p) as H.
  apply Pos2Z.pos_lt_pos in H. rewrite Pos2Z.inj_pow in H. exact H.
Qed.

Lemma digits2_pos_le (p : positive) : 2 ^ Zpos (digits2_pos p) <= 2 * Zpos p.
Proof.
  rewrite digits2_pos_size.
  pose proof (Pos.size_le p) as H.
  apply Pos2Z.pos_le_pos in H. rewrite Pos2Z.inj_pow in H. exact H.
Qed.

Lemma Zdigits2_bound (m k : Z) : 0 <= m < 2 ^ k -> 0 <= k -> Zdigits2 m <= k.
Proof.
  intros [Hm Hlt] Hk. destruct m as [|p|p]; simpl; [exact Hk| |lia].
  pose proof (digits2_pos_le p) as Hle.
  assert (H : 2 ^ Zpos (digits2_pos p) < 2 ^ (k + 1)).
  { replace (k + 1) with (Z.succ k) by lia. rewrite Z.pow_succ_r by exact Hk. lia. }
  apply Z.pow_lt_mono_r_iff in H; lia.
Qed.

Lemma Zdigits2_gt (m : Z) : 0 <= m -> m < 2 ^ Zdigits2 m.
Proof.
  intros Hm. destruct m as [|p|p]; simpl; [lia | apply digits2_pos_gt | lia].
Qed.

Lemma shr_1_digits (s : shr_record) :
  0 <= shr_m s ->
  0 <= shr_m (shr_1 s) /\ Zdigits2 (shr_m (shr_1 s)) = Z.max 0 (Zdigits2 (shr_m s) - 1).
Proof.
  destruct s as [m r st]. cbn [shr_m]. intros Hm.
  destruct m as [|p|p]; [cbn; lia| |lia].
  destruct p; cbn [shr_m shr_1 Zdigits2 digits2_pos];
    rewrite ?Pos2Z.inj_succ; lia.
Qed.

Lemma iter_shr_1_digits (p : positive) (s : shr_record) :
  0 <= shr_m s ->
  0 <= shr_m (SpecFloat.iter_pos shr_1 p s)
  /\ Zdigits2 (shr_m (SpecFloat.iter_pos shr_1 p s)) = Z.max 0 (Zdigits2 (shr_m s) - Zpos p).
Proof.
  revert s. induction p as [p IH|p IH|]; intros s Hs; cbn [SpecFloat.iter_pos].
  - destruct (shr_1_digits s Hs) as [H0 E0].
    destruct (IH _ H0) as [H1 E1].
    destruct (IH _ H1) as [H2 E2].
    split; [exact H2|]. rewrite E2, E1, E0. lia.
  - destruct (IH _ Hs) as [H1 E1].
    destruct (IH _ H1) as [H2 E2].
    split; [exact H2|]. rewrite E2, E1. lia.
  - apply shr_1_digits, Hs.
Qed.

Lemma fexp_binary64 (e : Z) : fexp prec emax e = Z.max (e - 53) (-1074).
Proof. reflexivity. Qed.

Lemma shr_record_of_loc_m (m : Z) (l : SpecFloat.location) : shr_m (shr_record_of_loc m l) = m.
Proof. destruct l as [|[| |]]; reflexivity. Qed.

Lemma shr_fexp_bounds (m e : Z) (l : SpecFloat.location) :
  0 <= m ->
  0 <= shr_m (fst (shr_fexp prec emax m e l))
  /\ snd (shr_fexp prec emax m e l) = Z.max e (fexp prec emax (Zdigits2 m + e))
  /\ Zdigits2 (shr_m (fst (shr_fexp prec emax m e l))) + snd (shr_fexp prec emax m e l)
     = Z.max (snd (shr_fexp prec emax m e l)) (Zdigits2 m + e).
Proof.
  intros Hm. unfold shr_fexp, shr.
  pose proof (Zdigits2_nonneg m) as Hd.
  destruct (fexp prec emax (Zdigits2 m + e) - e) as [|n|n] eqn:En;
    cbn [fst snd]; rewrite ?shr_record_of_loc_m.
  - repeat split; [exact Hm | lia | lia].
  - destruct (iter_shr_1_digits n (shr_record_of_loc m l)) as [H0 E0].
    { rewrite shr_record_of_loc_m. exact Hm. }
    rewrite shr_record_of_loc_m in E0.
    repeat split; [exact H0 | lia | lia].
  - repeat split; [exact Hm | lia | lia].
Qed.

Lemma round_nearest_even_bounds (m : Z) (l : SpecFloat.location) :
  0 <= m -> m <= round_nearest_even m l <= m + 1.
Proof.
  intros Hm. destruct l as [|[| |]]; simpl; try lia.
  destruct (Z.even m); lia.
Qed.

Lemma binary_round_aux_in_range (sx : bool) (m e : Z) (l : SpecFloat.location) :
  0 <= m -> Zdigits2 m + e <= 1023 -> e <= 971 ->
  PyNum.is_infinity (binary_round_aux prec emax sx m e l) = false.
Proof.
  intros Hm Hd He. unfold binary_round_aux.
  destruct (shr_fexp_bounds m e l Hm) as (H1 & E1 & D1).
  destruct (shr_fexp prec emax m e l) as [mrs1 e1]. cbn [fst snd] in *.
  pose proof (round_nearest_even_bounds (shr_m mrs1) (loc_of_shr_record mrs1) H1) as Hr.
  set (m1 := round_nearest_even (shr_m mrs1) (loc_of_shr_record mrs1)) in *.
  assert (Hm1 : 0 <= m1) by lia.
  destruct (shr_fexp_bounds m1 e1 loc_Exact Hm1) as (H2 & E2 & D2).
  destruct (shr_fexp prec emax m1 e1 loc_Exact) as [mrs2 e2]. cbn [fst snd] in *.
  assert (Hdm1 : Zdigits2 m1 <= Zdigits2 (shr_m mrs1) + 1).
  { pose proof (Zdigits2_nonneg (shr_m mrs1)).
    pose proof (Zdigits2_gt (shr_m mrs1) H1) as Hgt.
    apply Zdigits2_bound; [|lia].
    split; [exact Hm1|].
    replace (Zdigits2 (shr_m mrs1) + 1) with (Z.succ (Zdigits2 (shr_m mrs1))) by lia.
    rewrite Z.pow_succ_r by lia. lia. }
  rewrite fexp_binary64 in E1, E2.
  assert (He2 : e2 <= 971) by lia.
  destruct (shr_m mrs2) as [|p|p]; [reflexivity| |reflexivity].
  apply Z.leb_le in He2.
  change (emax - prec) with 971. rewrite He2. reflexivity.
Qed.

Lemma SFdiv_core_binary_bounds (mx my : positive) :
  Zpos mx < 2 ^ 1023 ->
  let qel := SFdiv_core_binary prec emax (Zpos mx) 0 (Zpos my) 0 in
  0 <= fst (fst qel)
  /\ Zdigits2 (fst (fst qel)) + snd (fst qel) <= 1023
  /\ snd (fst qel) <= 971.
Proof.
  intros Hx. unfold SFdiv_core_binary.
  set (e' := Z.min _ (0 - 0)).
  assert (He' : e' <= 0) by (subst e'; lia).
  set (m' := match 0 - 0 - e' with Z.pos _ => _ | Z0 => _ | Z.neg _ => _ end).
  assert (Hm' : m' = Zpos mx * 2 ^ (- e')).
  { subst m'. destruct (0 - 0 - e') as [|s|s] eqn:Es.
    - replace (- e') with 0 by lia. lia.
    - rewrite Z.shiftl_mul_pow2 by lia. f_equal. f_equal. lia.
    - lia. }
  pose proof (Z_div_mod m' (Zpos my) eq_refl) as Hdiv.
  destruct (Z.div_eucl m' (Zpos my)) as [q r]. cbn [fst snd].
  destruct Hdiv as [Hq Hr].
  assert (Hpow : 0 < 2 ^ (- e')) by (apply Z.pow_pos_nonneg; lia).
  assert (Hq0 : 0 <= q) by nia.
  assert (Hqle : q <= m') by nia.
  split; [exact Hq0|]. split; [|lia].
  assert (Hlt : q < 2 ^ (1023 - e')).
  { replace (1023 - e') with (1023 + - e') by lia.
    rewrite Z.pow_add_r by lia. nia. }
  pose proof (Zdigits2_bound q (1023 - e')). lia.
Qed.

Lemma nearest_quotient_in_range (a b : Z) :
  b <> 0 -> Z.abs a < 2 ^ 1023 ->
  PyNum.is_infinity (PyNum.nearest_quotient a b) = false.
Proof.
  intros Hb Ha. unfold PyNum.nearest_quotient.
  destruct b as [|my|my]; [congruence| |];
    (destruct a as [|mx|mx]; [reflexivity| |]);
    cbn [PyNum.SF_of_int SFdiv];
    pose proof (SFdiv_core_binary_bounds mx my Ha) as H; cbv zeta in H;
    destruct (SFdiv_core_binary prec emax (Zpos mx) 0 (Zpos my) 0) as [[q e] l];
    cbn [fst snd] in H; destruct H as (H0 & H1 & H2);
    apply binary_round_aux_in_range; assumption.
Qed.

Lemma Zdigits2_unique (m k : Z) :
  2 ^ (k - 1) <= m < 2 ^ k -> 0 < k -> Zdigits2 m = k.
Proof.
  intros [Hlo Hhi] Hk.
  assert (Hm : 0 < m).
  { pose proof (Z.pow_pos_nonneg 2 (k - 1)). lia. }
  pose proof (Zdigits2_bound m k) as Hle.
  pose proof (Zdigits2_gt m) as Hgt.
  pose proof (Zdigits2_nonneg m) as Hd.
  assert (H : 2 ^ (k - 1) < 2 ^ Zdigits2 m) by lia.
  apply Z.pow_lt_mono_r_iff in H; lia.
Qed.

Lemma Zdigits2_pos_bounds (m : Z) :
  0 < m -> 0 < Zdigits2 m /\ 2 ^ (Zdigits2 m - 1) <= m < 2 ^ Zdigits2 m.
Proof.
  intros Hm. destruct m as [|p|p]; try lia. cbn [Zdigits2].
  pose proof (digits2_pos_le p) as Hle. pose proof (digits2_pos_gt p) as Hgt.
  split; [lia|]. split; [|exact Hgt].
  replace (Z.pos (digits2_pos p)) with (Z.succ (Z.pos (digits2_pos p) - 1)) in Hle by lia.
  rewrite Z.pow_succ_r in Hle by lia. lia.
Qed.

Lemma Zdigits2_shift (m k : Z) :
  0 < m -> 0 <= k -> Zdigits2 (m * 2 ^ k) = Zdigits2 m + k.
Proof.
  intros Hm Hk.
  destruct (Zdigits2_pos_bounds m Hm) as (Hd & Hlo & Hhi).
  assert (Hp : 0 < 2 ^ k) by (apply Z.pow_pos_nonneg; lia).
  apply Zdigits2_unique; [|lia].
  replace (Zdigits2 m + k - 1) with (Zdigits2 m - 1 + k) by lia.
  rewrite !Z.pow_add_r by lia. nia.
Qed.

Lemma iter_xO (m d : positive) : Zpos (Pos.iter xO m d) = Zpos m * 2 ^ Zpos d.
Proof.
  induction d as [|d IH] using Pos.peano_ind.
  - simpl. lia.
  - rewrite Pos.iter_succ, Pos2Z.inj_succ, Z.pow_succ_r by lia.
    rewrite Pos2Z.inj_xO, IH. lia.
Qed.

Lemma iter_pos_comm {A : Type} (f : A -> A) (p : positive) (x : A) :
  SpecFloat.iter_pos f p (f x) = f (SpecFloat.iter_pos f p x).
Proof.
  revert x. induction p as [p IH|p IH|]; intros x; cbn [SpecFloat.iter_pos].
  - rewrite !IH. reflexivity.
  - rewrite !IH. reflexivity.
  - reflexivity.
Qed.

Lemma iter_pos_succ {A : Type} (f : A -> A) (p : positive) (x : A) :
  SpecFloat.iter_pos f (Pos.succ p) x = f (SpecFloat.iter_pos f p x).
Proof.
  revert x. induction p as [p IH|p IH|]; intros x.
  - change (Pos.succ p~1) with (Pos.succ p)~0%positive.
    cbn [SpecFloat.iter_pos]. rewrite !IH, <- !iter_pos_comm. reflexivity.
  - change (Pos.succ p~0) with p~1%positive.
    cbn [SpecFloat.iter_pos]. rewrite <- !iter_pos_comm. reflexivity.
  - reflexivity.
Qed.

Lemma shr_1_even (m : Z) :
  0 < m -> (2 | m) -> shr_1 (exact_record m) = exact_record (m / 2).
Proof.
  intros Hm [q Hq]. subst m.
  rewrite Z.div_mul by lia.
  destruct q as [|q|q]; try lia.
  unfold exact_record. cbn [shr_1 orb].
  replace (Z.pos q * 2) with (Z.pos q~0) by lia. reflexivity.
Qed.

Lemma iter_shr_1_exact (p : positive) (m : Z) :
  0 < m -> (2 ^ Zpos p | m) ->
  SpecFloat.iter_pos shr_1 p (exact_record m) = exact_record (m / 2 ^ Zpos p).
Proof.
  revert m. induction p as [|p IH] using Pos.peano_ind; intros m Hm Hdiv.
  - apply shr_1_even; [exact Hm | exact Hdiv].
  - rewrite iter_pos_succ.
    destruct Hdiv as [q Hq].
    rewrite Pos2Z.inj_succ, Z.pow_succ_r in Hq by lia.
    assert (Hp : 0 < 2 ^ Zpos p) by (apply Z.pow_pos_nonneg; lia).
    rewrite IH; [|exact Hm|exists (q * 2); lia].
    assert (Hmp : m / 2 ^ Zpos p = q * 2).
    { subst m. replace (q * (2 * 2 ^ Z.pos p)) with (q * 2 * 2 ^ Z.pos p) by lia.
      apply Z.div_mul. lia. }
    rewrite shr_1_even; [| nia | exists q; lia].
    f_equal. rewrite Pos2Z.inj_succ, Z.pow_succ_r by lia.
    rewrite Hmp. subst m.
    replace (q * (2 * 2 ^ Z.pos p)) with (q * (2 * 2 ^ Z.pos p)) by lia.
    rewrite Z.div_mul by lia. rewrite Z.div_mul by lia. reflexivity.
Qed.

Lemma shr_fexp_noshift (M e : Z) :
  fexp prec emax (Zdigits2 M + e) <= e ->
  shr_fexp prec emax M e loc_Exact = (exact_record M, e).
Proof.
  intros H. unfold shr_fexp, shr.
  destruct (fexp prec emax (Zdigits2 M + e) - e) as [|k|k] eqn:Ek;
    try reflexivity. lia.
Qed.

Lemma shr_fexp_shift (M e : Z) (k : positive) :
  0 < M ->
  fexp prec emax (Zdigits2 M + e) - e = Zpos k ->
  (2 ^ Zpos k | M) ->
  shr_fexp prec emax M e loc_Exact = (exact_record (M / 2 ^ Zpos k), e + Zpos k).
Proof.
  intros HM Hk Hdiv. unfold shr_fexp, shr. rewrite Hk.
  change (shr_record_of_loc M loc_Exact) with (exact_record M).
  rewrite iter_shr_1_exact by assumption. reflexivity.
Qed.

(** Rounding a mantissa that already has its final exponent changes nothing. *)
Lemma binary_round_aux_fixed (M : positive) (E : Z) :
  fexp prec emax (Zdigits2 (Zpos M) + E) <= E -> E <= 971 ->
  binary_round_aux prec emax false (Zpos M) E loc_Exact = S754_finite false M E.
Proof.
  intros Hf HE. unfold binary_round_aux.
  rewrite shr_fexp_noshift by exact Hf.
  cbn [exact_record shr_m loc_of_shr_record round_nearest_even].
  rewrite shr_fexp_noshift by exact Hf.
  cbn [exact_record shr_m].
  apply Z.leb_le in HE. change (emax - prec) with 971. rewrite HE. reflexivity.
Qed.

Lemma binary_round_exact (m : positive) (e E : Z) :
  E = Zdigits2 (Zpos m) + e - 53 ->
  -1074 <= E <= 971 ->
  (e < E -> (2 ^ (E - e) | Zpos m)) ->
  exists p : positive,
    binary_round prec emax false m e = S754_finite false p E
    /\ Zpos p * 2 ^ Z.max 0 (E - e) = Zpos m * 2 ^ Z.max 0 (e - E).
Proof.
  intros HEdef HE Hdiv. unfold binary_round.
  change (Z.pos (digits2_pos m)) with (Zdigits2 (Zpos m)).
  assert (Hfexp : fexp prec emax (Zdigits2 (Zpos m) + e) = E).
  { rewrite fexp_binary64. lia. }
  rewrite Hfexp. unfold shl_align.
  destruct (E - e) as [|k|k] eqn:Ek.
  - (* no shift at all *)
    exists m. split.
    + replace e with E by lia. apply binary_round_aux_fixed; [|lia].
      replace E with e at 1 by lia. lia.
    + rewrite !Z.max_l by lia. reflexivity.
  - (* exact right shift *)
    assert (Hk : (2 ^ Zpos k | Zpos m)) by (apply Hdiv; lia).
    destruct Hk as [q Hq].
    assert (Hp : 0 < 2 ^ Zpos k) by (apply Z.pow_pos_nonneg; lia).
    assert (Hq0 : 0 < q) by nia.
    destruct q as [|q|q]; try lia.
    exists q. split.
    + unfold binary_round_aux.
      rewrite (shr_fexp_shift (Zpos m) e k); [|lia|lia|exists (Zpos q); exact Hq].
      rewrite Hq, Z.div_mul by lia.
      cbn [exact_record shr_m loc_of_shr_record round_nearest_even].
      assert (Hd : Zdigits2 (Zpos m) = Zdigits2 (Zpos q) + Zpos k).
      { rewrite Hq. apply Zdigits2_shift; lia. }
      rewrite shr_fexp_noshift.
      * cbn [exact_record shr_m].
        replace (e + Zpos k) with E by lia.
        destruct HE as [_ HE]. apply Z.leb_le in HE.
        change (emax - prec) with 971. rewrite HE. reflexivity.
      * replace (Zdigits2 (Z.pos q) + (e + Z.pos k)) with (Zdigits2 (Zpos m) + e) by lia.
        lia.
    + rewrite Z.max_r by lia. rewrite (Z.max_l 0 (e - E)) by lia.
      rewrite Hq. lia.
  - (* left shift *)
    exists (Pos.iter xO m k). split.
    + apply binary_round_aux_fixed; [|lia].
      rewrite iter_xO, Zdigits2_shift by lia.
      rewrite fexp_binary64. lia.
    + rewrite Z.max_l by lia. rewrite Z.max_r by lia.
      rewrite iter_xO. replace (e - E) with (Zpos k) by lia. lia.
Qed.

Lemma binary64_of_int_pos (z : positive) :
  Zpos z < 2 ^ 53 ->
  exists p : positive,
    binary64_of_int (Zpos z) = S754_finite false p (Zdigits2 (Zpos z) - 53)
    /\ Zpos p = Zpos z * 2 ^ (53 - Zdigits2 (Zpos z)).
Proof.
  intros Hz.
  destruct (Zdigits2_pos_bounds (Zpos z) eq_refl) as (Hd & _).
  pose proof (Zdigits2_bound (Zpos z) 53) as Hle.
  destruct (binary_round_exact z 0 (Zdigits2 (Zpos z) - 53))
    as (p & Hp & Hv); [lia | lia | lia |].
  exists p. split.
  - unfold binary64_of_int, binary_normalize. exact Hp.
  - rewrite Z.max_l in Hv by lia.
    replace (Z.max 0 (0 - (Zdigits2 (Z.pos z) - 53)))
      with (53 - Zdigits2 (Z.pos z)) in Hv by lia.
    lia.
Qed.

Lemma shl_align_value (m : positive) (e e' : Z) :
  e' <= e -> Zpos (fst (shl_align m e e')) = Zpos m * 2 ^ (e - e').
Proof.
  intros H. unfold shl_align.
  destruct (e' - e) as [|k|k] eqn:Ek; cbn [fst].
  - replace (e - e') with 0 by lia. lia.
  - lia.
  - rewrite iter_xO. f_equal. f_equal. lia.
Qed.

Lemma pow2_split (x y : Z) : 0 <= x -> 0 <= y -> 2 ^ (x + y) = 2 ^ x * 2 ^ y.
Proof. intros. apply Z.pow_add_r; assumption. Qed.

Lemma SFadd_exact (a b : Z) :
  0 <= a -> 0 <= b -> a + b < 2 ^ 53 ->
  SFadd prec emax (binary64_of_int a) (binary64_of_int b) = binary64_of_int (a + b).
Proof.
  intros Ha Hb Hab.
  destruct a as [|a|a]; [|clear Ha|lia].
  { (* 0 + b *)
    destruct b as [|b|b]; [reflexivity| |lia].
    destruct (binary64_of_int_pos b) as (p & Hp & _); [lia|].
    change (0 + Z.pos b) with (Z.pos b). rewrite Hp. reflexivity. }
  destruct b as [|b|b]; [|clear Hb|lia].
  { destruct (binary64_of_int_pos a) as (p & Hp & _); [lia|].
    rewrite Z.add_0_r, Hp. reflexivity. }
  destruct (binary64_of_int_pos a) as (pa & Hpa & Hva); [lia|].
  destruct (binary64_of_int_pos b) as (pb & Hpb & Hvb); [lia|].
  destruct (binary64_of_int_pos (a + b)) as (pc & Hpc & Hvc); [exact Hab|].
  change (Z.pos a + Z.pos b) with (Z.pos (a + b)).
  rewrite Hpa, Hpb, Hpc. clear Hpa Hpb Hpc.
  destruct (Zdigits2_pos_bounds (Zpos a) eq_refl) as (Hda & _).
  destruct (Zdigits2_pos_bounds (Zpos b) eq_refl) as (Hdb & _).
  destruct (Zdigits2_pos_bounds (Zpos (a + b)) eq_refl) as (Hdc & Hclo & _).
  pose proof (Zdigits2_bound (Zpos a) 53) as Hxa.
  pose proof (Zdigits2_bound (Zpos b) 53) as Hxb.
  pose proof (Zdigits2_bound (Zpos (a + b)) 53) as Hxc.
  set (da := Zdigits2 (Zpos a)) in *.
  set (db := Zdigits2 (Zpos b)) in *.
  set (dc := Zdigits2 (Zpos (a + b))) in *.
  assert (Hac : da <= dc).
  { subst da dc. apply Zdigits2_bound; [|lia].
    pose proof (Zdigits2_gt (Zpos (a + b))). lia. }
  assert (Hbc : db <= dc).
  { subst db dc. apply Zdigits2_bound; [|lia].
    pose proof (Zdigits2_gt (Zpos (a + b))). lia. }
  cbn [SFadd cond_Zopp].
  set (ez := Z.min (da - 53) (db - 53)).
  rewrite !shl_align_value by (subst ez; lia).
  rewrite Hva, Hvb.
  assert (HM : Z.pos a * 2 ^ (53 - da) * 2 ^ (da - 53 - ez)
               + Z.pos b * 2 ^ (53 - db) * 2 ^ (db - 53 - ez)
               = Zpos (a + b) * 2 ^ (- ez)).
  { rewrite <- !Z.mul_assoc, <- !pow2_split by (subst ez; lia).
    replace (53 - da + (da - 53 - ez)) with (- ez) by lia.
    replace (53 - db + (db - 53 - ez)) with (- ez) by lia.
    lia. }
  rewrite HM. clear HM.
  assert (Hpz : 0 < 2 ^ (- ez)) by (apply Z.pow_pos_nonneg; lia).
  destruct (Z.pos (a + b) * 2 ^ (- ez)) as [|mm|mm] eqn:Hmm; try lia.
  cbn [binary_normalize].
  assert (Hdm : Zdigits2 (Zpos mm) = dc - ez).
  { rewrite <- Hmm. subst dc. rewrite Zdigits2_shift by (subst ez; lia). lia. }
  destruct (binary_round_exact mm ez (dc - 53)) as (p & Hp & Hv).
  { rewrite Hdm. lia. }
  { lia. }
  { intros Hlt.
    exists (Zpos (a + b) * 2 ^ (53 - dc)).
    rewrite <- Hmm, <- Z.mul_assoc, <- pow2_split by lia.
    f_equal. f_equal. lia. }
  rewrite Hp.
  f_equal.
  apply Pos2Z.inj. rewrite Hvc.
  destruct (Z_le_gt_dec (dc - 53) ez) as [Hle|Hgt].
  - rewrite (Z.max_l 0 (dc - 53 - ez)) in Hv by lia.
    rewrite Z.max_r in Hv by lia.
    rewrite <- Hmm in Hv. rewrite <- Z.mul_assoc, <- pow2_split in Hv by lia.
    replace (- ez + (ez - (dc - 53))) with (53 - dc) in Hv by lia. lia.
  - rewrite (Z.max_r 0 (dc - 53 - ez)) in Hv by lia.
    rewrite Z.max_l in Hv by lia.
    rewrite <- Hmm in Hv.
    replace (- ez) with (53 - dc + (dc - 53 - ez)) in Hv by lia.
    rewrite pow2_split in Hv by lia.
    assert (Hq : 0 < 2 ^ (dc - 53 - ez)) by (apply Z.pow_pos_nonneg; lia).
    nia.
Qed.

Lemma foldr_add_app (l1 l2 : list Z) :
  foldr Z.add 0 (l1 ++ l2) = foldr Z.add 0 l1 + foldr Z.add 0 l2.
Proof. induction l1 as [|x l1 IH]; simpl; [reflexivity | rewrite IH; lia]. Qed.

Lemma foldr_add_nonneg (l : list Z) :
  Forall (fun z => 0 <= z) l -> 0 <= foldr Z.add 0 l.
Proof. induction 1; simpl; lia. Qed.

Lemma binary64_sum_exact (t : summation) :
  Forall (fun z => 0 <= z) (entries t) ->
  foldr Z.add 0 (entries t) < 2 ^ 53 ->
  binary64_sum t = binary64_of_int (foldr Z.add 0 (entries t)).
Proof.
  induction t as [z|t1 IH1 t2 IH2]; cbn [entries binary64_sum]; intros Hpos Hsum.
  - simpl. rewrite Z.add_0_r. reflexivity.
  - apply Forall_app in Hpos. destruct Hpos as [Hpos1 Hpos2].
    rewrite foldr_add_app in *.
    pose proof (foldr_add_nonneg _ Hpos1). pose proof (foldr_add_nonneg _ Hpos2).
    rewrite IH1, IH2 by (assumption || lia).
    apply SFadd_exact; lia.
Qed.

Lemma foldr_add_Permutation (l1 l2 : list Z) :
  Permutation l1 l2 -> foldr Z.add 0 l1 = foldr Z.add 0 l2.
Proof. induction 1; simpl; lia. Qed.

Lemma binary64_of_int_valid (z : Z) :
  0 <= z < 2 ^ 53 -> valid_binary (binary64_of_int z) = true.
Proof.
  intros [Hz Hlt]. destruct z as [|z|z]; [reflexivity| |lia].
  destruct (binary64_of_int_pos z Hlt) as (p & Hp & Hv). rewrite Hp.
  destruct (Zdigits2_pos_bounds (Zpos z) eq_refl) as (Hd & _).
  pose proof (Zdigits2_bound (Zpos z) 53) as Hle.
  assert (Hdp : Zdigits2 (Zpos p) = 53).
  { rewrite Hv, Zdigits2_shift by lia. lia. }
  cbn [SpecFloat.valid_binary]. unfold bounded, canonical_mantissa.
  change (Z.pos (digits2_pos p)) with (Zdigits2 (Zpos p)).
  rewrite Hdp, fexp_binary64. apply andb_true_intro. split.
  - apply Z.eqb_eq. lia.
  - apply Z.leb_le. change (emax - prec) with 971. lia.
Qed.

Lemma div_SF2Prim (x y : spec_float) :
  valid_binary x = true -> valid_binary y = true ->
  PrimFloat.div (SF2Prim x) (SF2Prim y) = SF2Prim (SFdiv prec emax x y).
Proof.
  intros Hx Hy.
  rewrite <- (SF2Prim_Prim2SF (PrimFloat.div (SF2Prim x) (SF2Prim y))).
  rewrite div_spec, !Prim2SF_SF2Prim by assumption. reflexivity.
Qed.

Lemma new_location_double (n k : Z) :
  0 < n -> 0 <= k < n -> new_location (2 * n) (2 * k) = new_location n k.
Proof.
  intros Hn Hk. unfold new_location.
  rewrite Z.even_mul. cbn [Z.even orb].
  destruct (Z.even n) eqn:Hev; unfold new_location_even, new_location_odd;
    (destruct (Z.eqb_spec k 0) as [->|Hk0]; [reflexivity|]);
    (destruct (Z.eqb_spec (2 * k) 0) as [H0|_]; [lia|]); f_equal.
  - destruct (Z.compare_spec (2 * (2 * k)) (2 * n));
      destruct (Z.compare_spec (2 * k) n); try reflexivity; lia.
  - assert (Hodd : Z.odd n = true) by (rewrite <- Z.negb_even, Hev; reflexivity).
    apply Z.odd_spec in Hodd. destruct Hodd as [h Hh].
    destruct (Z.compare_spec (2 * (2 * k)) (2 * n));
      destruct (Z.compare_spec (2 * k + 1) n); try reflexivity; lia.
Qed.

Lemma new_location_scale (t : nat) (n k : Z) :
  0 < n -> 0 <= k < n ->
  new_location (n * 2 ^ Z.of_nat t) (k * 2 ^ Z.of_nat t) = new_location n k.
Proof.
  intros Hn Hk. induction t as [|t IH].
  - rewrite !Z.mul_1_r. reflexivity.
  - rewrite Nat2Z.inj_succ, Z.pow_succ_r by lia.
    assert (Hp : 0 < 2 ^ Z.of_nat t) by (apply Z.pow_pos_nonneg; lia).
    replace (n * (2 * 2 ^ Z.of_nat t)) with (2 * (n * 2 ^ Z.of_nat t)) by lia.
    replace (k * (2 * 2 ^ Z.of_nat t)) with (2 * (k * 2 ^ Z.of_nat t)) by lia.
    rewrite new_location_double by nia. exact IH.
Qed.

Lemma div_eucl_pair (a b : Z) : Z.div_eucl a b = (a / b, a mod b).
Proof. unfold Z.div, Z.modulo. destruct (Z.div_eucl a b). reflexivity. Qed.

Lemma SFdiv_core_canonical (a b pa pb : positive) :
  Zpos a < 2 ^ 53 -> Zpos b < 2 ^ 53 ->
  Zpos pa = Zpos a * 2 ^ (53 - Zdigits2 (Zpos a)) ->
  Zpos pb = Zpos b * 2 ^ (53 - Zdigits2 (Zpos b)) ->
  SFdiv_core_binary prec emax (Zpos pa) (Zdigits2 (Zpos a) - 53)
                    (Zpos pb) (Zdigits2 (Zpos b) - 53)
  = SFdiv_core_binary prec emax (Zpos a) 0 (Zpos b) 0.
Proof.
  intros Ha Hb Hpa Hpb.
  destruct (Zdigits2_pos_bounds (Zpos a) eq_refl) as (Hda & _).
  destruct (Zdigits2_pos_bounds (Zpos b) eq_refl) as (Hdb & _).
  pose proof (Zdigits2_bound (Zpos a) 53) as Hxa.
  pose proof (Zdigits2_bound (Zpos b) 53) as Hxb.
  assert (Hdpa : Zdigits2 (Zpos pa) = 53)
    by (rewrite Hpa, Zdigits2_shift by lia; lia).
  assert (Hdpb : Zdigits2 (Zpos pb) = 53)
    by (rewrite Hpb, Zdigits2_shift by lia; lia).
  set (da := Zdigits2 (Zpos a)) in *.
  set (db := Zdigits2 (Zpos b)) in *.
  unfold SFdiv_core_binary. rewrite Hdpa, Hdpb. fold da db.
  rewrite !fexp_binary64.
  replace (Z.min (Z.max (53 + (da - 53) - (53 + (db - 53)) - 53) (-1074))
             (da - 53 - (db - 53))) with (da - db - 53) by lia.
  replace (Z.min (Z.max (da + 0 - (db + 0) - 53) (-1074)) (0 - 0))
    with (da - db - 53) by lia.
  replace (da - 53 - (db - 53) - (da - db - 53)) with 53 by lia.
  destruct (0 - 0 - (da - db - 53)) as [|s|s] eqn:Hs; try lia.
  rewrite !Z.shiftl_mul_pow2 by lia.
  rewrite !div_eucl_pair.
  set (t := 53 - db).
  assert (Ht : 0 <= t) by (subst t; lia).
  assert (Hp : 0 < 2 ^ t) by (apply Z.pow_pos_nonneg; lia).
  assert (HX : Z.pos pa * 2 ^ 53 = Z.pos a * 2 ^ Z.pos s * 2 ^ t).
  { rewrite Hpa, <- !Z.mul_assoc, <- !pow2_split by lia.
    f_equal. f_equal. lia. }
  rewrite HX, Hpb. fold t.
  rewrite Z.div_mul_cancel_r by lia.
  rewrite Z.mul_mod_distr_r by lia.
  assert (Hloc : new_location (Z.pos b * 2 ^ t)
                   ((Z.pos a * 2 ^ Z.pos s) mod Z.pos b * 2 ^ t)
                 = new_location (Z.pos b) ((Z.pos a * 2 ^ Z.pos s) mod Z.pos b)).
  { rewrite <- (Z2Nat.id t Ht).
    apply new_location_scale; [lia|].
    apply Z.mod_pos_bound. lia. }
  rewrite Hloc. reflexivity.
Qed.

Lemma SFdiv_binary64_of_int (a b : Z) :
  0 <= a < 2 ^ 53 -> 0 < b < 2 ^ 53 ->
  SFdiv prec emax (binary64_of_int a) (binary64_of_int b)
  = SFdiv prec emax (PyNum.SF_of_int a) (PyNum.SF_of_int b).
Proof.
  intros [Ha Hla] [Hb Hlb].
  destruct b as [|b|b]; try lia.
  destruct (binary64_of_int_pos b Hlb) as (pb & Hpb & Hvb).
  destruct a as [|a|a]; [|clear Ha|lia].
  - rewrite Hpb. reflexivity.
  - destruct (binary64_of_int_pos a Hla) as (pa & Hpa & Hva).
    rewrite Hpa, Hpb. cbn [PyNum.SF_of_int SFdiv].
    rewrite (SFdiv_core_canonical a b pa pb) by assumption.
    reflexivity.
Qed.

End Binary64.

(** ** Step 7: the ROI calculator *)

Lemma int_truediv_zero (a : Z) : int_truediv a 0 = Raise ZeroDivisionError.
Proof. reflexivity. Qed.

Lemma int_truediv_nonzero (a b : Z) :
  b <> 0 ->
  int_truediv a b
  = match PyNum.nearest_quotient a b with
    | S754_infinity _ => Raise OverflowError
    | q => Return (SF2Prim q)
    end.
Proof.
  intros Hb. unfold int_truediv.
  apply Z.eqb_neq in Hb. rewrite Hb. reflexivity.
Qed.

(** C2: a zero initial investment makes [calculate_roi] fail with
    [ZeroDivisionError], whatever the other three arguments are; with a
    nonzero initial investment it never fails with that error. *)
Theorem calculate_roi_division_by_zero :
  (forall m f c : Z, calculate_roi 0 m f c = Raise ZeroDivisionError)
  /\ (forall i m f c : Z,
         i <> 0 -> calculate_roi i m f c <> Raise ZeroDivisionError).
Proof.
  split.
  - intros m f c. reflexivity.
  - intros i m f c Hi. unfold calculate_roi.
    rewrite int_truediv_nonzero by exact Hi.
    destruct (PyNum.nearest_quotient (f - c - m) i); discriminate.
Qed.

Lemma calculate_roi_division_by_zero_witness :
  500000 <> 0
  /\ calculate_roi 500000 20000 60000 10000 <> Raise ZeroDivisionError.
Proof.
  split; [discriminate|].
  apply (proj2 calculate_roi_division_by_zero). discriminate.
Defined.

(** What [calculate_roi] does for a nonzero initial investment. *)
Lemma calculate_roi_nonzero (i m f c : Z) :
  i <> 0 ->
  calculate_roi i m f c
  = match PyNum.nearest_quotient ((f - c) - m) i with
    | S754_infinity _ => Raise OverflowError
    | q => Return (PrimFloat.mul (SF2Prim q) 100)
    end.
Proof.
  intros Hi. unfold calculate_roi, float_mul_int.
  rewrite int_truediv_nonzero by exact Hi. rewrite float_of_int_100.
  destruct (PyNum.nearest_quotient (f - c - m) i); reflexivity.
Qed.

(** C5: with a nonzero initial investment [calculate_roi] returns
    [((fuel_savings - charging_costs) - maintenance_costs)
     / initial_investment * 100]: the quotient of the two ints rounded to
    binary64, as [/] gives it, times [100.0].  It returns that float for
    every net profit below [2^1023] in magnitude; beyond the binary64 range
    the division raises [OverflowError], as the expression itself does.  The
    call of the source gives 6.0 exactly, and negative arguments go through
    the same arithmetic. *)
Theorem calculate_roi_formula :
  (forall i m f c : Z,
      i <> 0 ->
      Z.abs ((f - c) - m) < 2 ^ 1023 ->
      calculate_roi i m f c
      = Return (PrimFloat.mul
                  (SF2Prim (PyNum.nearest_quotient ((f - c) - m) i)) 100))
  /\ (forall i m f c : Z,
         i <> 0 ->
         calculate_roi i m f c
         = match PyNum.nearest_quotient ((f - c) - m) i with
           | S754_infinity _ => Raise OverflowError
           | q => Return (PrimFloat.mul (SF2Prim q) 100)
           end)
  /\ calculate_roi 500000 20000 60000 10000 = Return 6%float
  /\ calculate_roi (-500000) 20000 60000 10000 = Return (-6)%float
  /\ calculate_roi 500000 (-20000) (-60000) (-10000) = Return (-6)%float
  /\ calculate_roi 500000 80000 60000 10000 = Return (-6)%float.
Proof.
  split; [|split; [exact calculate_roi_nonzero | repeat split; reflexivity]].
  intros i m f c Hi Hrange.
  rewrite calculate_roi_nonzero by exact Hi.
  pose proof (Binary64.nearest_quotient_in_range (f - c - m) i Hi Hrange) as Hfin.
  destruct (PyNum.nearest_quotient (f - c - m) i);
    [reflexivity | discriminate Hfin | reflexivity | reflexivity].
Qed.

Lemma calculate_roi_formula_witness :
  4 <> 0
  /\ Z.abs ((10 - 2) - 1) < 2 ^ 1023
  /\ calculate_roi 4 1 10 2 = Return 175%float.
Proof.
  split; [discriminate|]. split; [reflexivity|].
  rewrite (proj1 calculate_roi_formula 4 1 10 2); [reflexivity | discriminate | reflexivity].
Defined.

(** * Further properties of the workflow *)

(** ** The decision loop (lines 88-89) *)

(** Run over a fleet, the engine prints one line for each snapshot, in the
    order of the list, after what was printed before; each line announces the
    recommendation the priority order gives for that snapshot.  On the empty
    fleet it prints nothing. *)
Theorem decide_for_each_prints_one_line_each (data : list ev_data)
  (out : stdout) :
  decide_for_each data out = (Return tt, out ++ map decision_line data)
  /\ length (snd (decide_for_each data out)) = (length out + length data)%nat.
Proof.
  assert (Hrun : forall out',
             decide_for_each data out'
             = (Return tt, out' ++ map decision_line data)).
  { induction data as [|ev data IH]; intros out'; cbn [decide_for_each map].
    - unfold ret. rewrite app_nil_r. reflexivity.
    - unfold bind. rewrite make_operational_decisions_run, IH.
      rewrite <- app_assoc. reflexivity. }
  split; [apply Hrun|].
  rewrite Hrun. cbn [snd]. rewrite length_app, length_map. reflexivity.
Qed.

(** A speed reading that is not a number is never reported as speeding: with
    a battery level of 20 or more the vehicle is reported as operating
    normally. *)
Theorem nan_speed_is_not_speeding (ev : ev_data) :
  speed ev = nan ->
  ~ recommends ev reduce_speed
  /\ (20 <= battery_level ev -> recommends ev normal_operation).
Proof.
  intros Hnan.
  assert (Hengine : DecisionEngine (battery_level ev) (speed ev)
                    = if battery_level ev <? 20 then route_to_charging
                      else normal_operation).
  { unfold DecisionEngine. rewrite Hnan. reflexivity. }
  split.
  - intros H. apply recommends_unique in H. rewrite Hengine in H.
    destruct (battery_level ev <? 20); discriminate H.
  - intros Hok. apply Z.ltb_ge in Hok.
    pose proof (recommends_DecisionEngine ev) as H.
    rewrite Hengine, Hok in H. exact H.
Qed.

Lemma nan_speed_is_not_speeding_witness :
  speed (snapshot 101 64 nan) = nan
  /\ ~ recommends (snapshot 101 64 nan) reduce_speed
  /\ recommends (snapshot 101 64 nan) normal_operation.
Proof.
  split; [reflexivity|].
  destruct (nan_speed_is_not_speeding (snapshot 101 64 nan) eq_refl)
    as [Hnot Hnormal].
  split; [exact Hnot|]. apply Hnormal. discriminate.
Defined.

(** ** The report and the engine agree *)




(** The suggestion is printed exactly when some vehicle of the batch has a
    battery level below 20, for every non-empty batch of battery
    percentages. *)
Theorem suggestion_iff_some_vehicle_low (batch : list ev_data) :
  batch <> [] ->
  percentages batch ->
  In suggestion_line (snd (continuous_improvement (pd_DataFrame batch) []))
  <-> Exists (fun ev => battery_level ev < 20) batch.
Proof.
  intros Hne _. rewrite continuous_improvement_batch by exact Hne.
  cbn [snd app]. unfold report.
  rewrite List.Exists_exists.
  destruct (low_battery batch) as [|ev low] eqn:Hlow; cbn [length].
  - split.
    + intros [H|[H|[]]]; discriminate H.
    + intros [ev [Hin Hlt]].
      assert (Hev : In ev (low_battery batch)) by (apply low_battery_In; split; assumption).
      rewrite Hlow in Hev. destruct Hev.
  - split.
    + intros _. exists ev. apply low_battery_In. rewrite Hlow. left. reflexivity.
    + intros _. right. right. left. reflexivity.
Qed.

Lemma suggestion_iff_some_vehicle_low_witness :
  batch_mixed <> []
  /\ percentages batch_mixed
  /\ (In suggestion_line
        (snd (continuous_improvement (pd_DataFrame batch_mixed) []))
      <-> Exists (fun ev => battery_level ev < 20) batch_mixed).
Proof.
  assert (Hrange : percentages batch_mixed)
    by (split; [repeat constructor; discriminate | reflexivity]).
  split; [discriminate|]. split; [exact Hrange|].
  apply (suggestion_iff_some_vehicle_low batch_mixed);
    [discriminate | exact Hrange].
Defined.

(** A frame without the [battery_level] column makes the function fail with
    [KeyError] before it prints anything, whatever rows it has; a frame of
    battery percentages with that column and without the [ev_id] column
    makes it fail with [KeyError] after the mean has been printed. *)
Theorem continuous_improvement_missing_column (df : DataFrame) (out : stdout) :
  (has_column df "battery_level" = false ->
   continuous_improvement df out = (Raise (KeyError "battery_level"), out))
  /\ (has_column df "battery_level" = true ->
      has_column df "ev_id" = false ->
      percentages (rows df) ->
      continuous_improvement df out
      = (Raise (KeyError "ev_id"),
         out ++ [AverageBatteryLevel
                   (series_mean (map battery_level (rows df)))])).
Proof.
  split.
  - intros Hb. rewrite continuous_improvement_run, Hb. reflexivity.
  - intros Hb Hid _. rewrite continuous_improvement_run, Hb, Hid. reflexivity.
Qed.

Lemma continuous_improvement_missing_column_witness :
  continuous_improvement
    {| columns := ["ev_id"; "speed"]%string; rows := batch_mixed |} []
  = (Raise (KeyError "battery_level"), [])
  /\ percentages batch_mixed
  /\ continuous_improvement
       {| columns := ["battery_level"]%string; rows := batch_mixed |} []
     = (Raise (KeyError "ev_id"), [AverageBatteryLevel 25.5]).
Proof.
  assert (Hrange : percentages batch_mixed)
    by (split; [repeat constructor; discriminate | reflexivity]).
  split; [|split; [exact Hrange|]].
  - apply (proj1 (continuous_improvement_missing_column
                    {| columns := ["ev_id"; "speed"]%string;
                       rows := batch_mixed |} [])).
    reflexivity.
  - apply (proj2 (continuous_improvement_missing_column
                    {| columns := ["battery_level"]%string;
                       rows := batch_mixed |} []));
      [reflexivity | reflexivity | exact Hrange].
Defined.

(** ** The dispatcher's descriptions *)

Lemma length_append (s t : string) :
  String.length (s +:+ t) = (String.length s + String.length t)%nat.
Proof. induction s as [|ch s IH]; simpl; [reflexivity | rewrite IH; reflexivity]. Qed.

Lemma append_inv_tail (s1 s2 t : string) : s1 +:+ t = s2 +:+ t -> s1 = s2.
Proof.
  revert s2. induction s1 as [|c1 s1 IH]; intros [|c2 s2] H; simpl in H.
  - reflexivity.
  - apply (f_equal String.length) in H. cbn [String.length] in H.
    rewrite !length_append in H. cbn [String.length] in H. exfalso. lia.
  - apply (f_equal String.length) in H. cbn [String.length] in H.
    rewrite !length_append in H. cbn [String.length] in H. exfalso. lia.
  - injection H as Hc H. rewrite Hc, (IH s2 H). reflexivity.
Qed.

(** Reading the decimal text of an int back gives the int. *)
Lemma int_of_string_str (n : Z) :
  NilZero.int_of_string (str (IdInt n)) = Some (Z.to_int n).
Proof.
  unfold str. apply NilZero.isi; destruct n as [|p|p]; simpl; try discriminate;
    intros H; injection H as H; exact (Unsigned.to_uint_nonnil p H).
Qed.

Lemma str_IdInt_inj (n n' : Z) : str (IdInt n) = str (IdInt n') -> n = n'.
Proof.
  intros H. apply (f_equal NilZero.int_of_string) in H.
  rewrite !int_of_string_str in H. injection H as H.
  apply DecimalZ.to_int_inj, H.
Qed.

(** The description of a recognized action, as a prefix, the identifier and
    a suffix that is proper to the action. *)
Lemma remote_control_recognized (v : vehicle_id) (action : string) :
  In action recognized_actions ->
  exists suffix : string,
    remote_control v action = "EV " +:+ str v +:+ suffix
    /\ (action = "start_charging" /\ suffix = " started charging."
        \/ action = "stop_charging" /\ suffix = " stopped charging."
        \/ action = "reduce_speed" /\ suffix = " speed reduced.").
Proof.
  simpl. intros [<-|[<-|[<-|[]]]].
  - eexists. split; [apply remote_control_start_charging|]. auto.
  - eexists. split; [apply remote_control_stop_charging|]. auto.
  - eexists. split; [apply remote_control_reduce_speed|]. auto.
Qed.

(** The sentinel tells failure from success: the function returns
    ["Invalid action"] exactly for the action names it does not know,
    whatever the vehicle identifier is. *)
Theorem remote_control_sentinel_iff_unrecognized (v : vehicle_id)
  (action : string) :
  remote_control v action = "Invalid action"
  <-> ~ In action recognized_actions.
Proof.
  split; [|apply remote_control_unrecognized].
  intros Heq Hin.
  destruct (remote_control_recognized v action Hin) as [suffix [Hrun _]].
  rewrite Hrun in Heq. discriminate Heq.
Qed.

(** For one vehicle, two recognized actions with the same description are
    the same action. *)
Theorem remote_control_action_inj (v : vehicle_id) (a a' : string) :
  In a recognized_actions ->
  In a' recognized_actions ->
  remote_control v a = remote_control v a' ->
  a = a'.
Proof.
  intros Ha Ha' Heq.
  destruct (remote_control_recognized v a Ha) as [s [Hrun Hs]].
  destruct (remote_control_recognized v a' Ha') as [s' [Hrun' Hs']].
  rewrite Hrun, Hrun' in Heq.
  apply (append_inv_head "EV "), (append_inv_head (str v)) in Heq.
  destruct Hs as [[-> ->]|[[-> ->]|[-> ->]]];
    destruct Hs' as [[-> ->]|[[-> ->]|[-> ->]]];
    first [reflexivity | discriminate Heq].
Qed.

Lemma remote_control_action_inj_witness :
  remote_control (IdInt 101) "stop_charging"
  = remote_control (IdInt 101) "stop_charging"
  /\ "stop_charging"%string = "stop_charging"%string.
Proof.
  split; [reflexivity|].
  apply (remote_control_action_inj (IdInt 101));
    [simpl; auto | simpl; auto | reflexivity].
Defined.

(** For one recognized action, two vehicles with int identifiers and the
    same description are the same vehicle: the identifier can be read back
    from the description. *)
Theorem remote_control_vehicle_inj (n n' : Z) (action : string) :
  In action recognized_actions ->
  remote_control (IdInt n) action = remote_control (IdInt n') action ->
  n = n'.
Proof.
  intros Ha Heq.
  destruct (remote_control_recognized (IdInt n) action Ha) as [s [Hrun Hs]].
  destruct (remote_control_recognized (IdInt n') action Ha) as [s' [Hrun' Hs']].
  rewrite Hrun, Hrun' in Heq.
  assert (Hss : s = s').
  { destruct Hs as [[-> ->]|[[-> ->]|[-> ->]]];
      destruct Hs' as [[E ->]|[[E ->]|[E ->]]];
      first [reflexivity | discriminate E]. }
  subst s'.
  apply (append_inv_head "EV ") in Heq.
  apply append_inv_tail in Heq.
  apply str_IdInt_inj, Heq.
Qed.

Lemma remote_control_vehicle_inj_witness :
  In "reduce_speed"%string recognized_actions
  /\ remote_control (IdInt (-7)) "reduce_speed"
     = remote_control (IdInt (-7)) "reduce_speed"
  /\ (-7) = (-7).
Proof.
  split; [simpl; auto|]. split; [reflexivity|].
  apply (remote_control_vehicle_inj (-7) (-7) "reduce_speed");
    [simpl; auto | reflexivity].
Defined.

(** ** The ROI at break-even *)

(** When the fuel savings less the charging costs equal the maintenance
    costs, the ROI is zero: [0.0] for a positive initial investment and
    [-0.0] for a negative one. *)
Theorem calculate_roi_break_even (i m f c : Z) :
  f - c = m ->
  (0 < i -> calculate_roi i m f c = Return 0%float)
  /\ (i < 0 -> calculate_roi i m f c = Return (-0)%float).
Proof.
  intros Hnet. split; intros Hi;
    (rewrite calculate_roi_nonzero by lia);
    replace (f - c - m) with 0 by lia;
    destruct i as [|p|p]; try lia; reflexivity.
Qed.

Lemma calculate_roi_break_even_witness :
  60000 - 10000 = 50000
  /\ calculate_roi 500000 50000 60000 10000 = Return 0%float
  /\ calculate_roi (-500000) 50000 60000 10000 = Return (-0)%float.
Proof.
  split; [reflexivity|].
  split.
  - apply (proj1 (calculate_roi_break_even 500000 50000 60000 10000 eq_refl)).
    reflexivity.
  - apply (proj2 (calculate_roi_break_even (-500000) 50000 60000 10000 eq_refl)).
    reflexivity.
Defined.

(** ** Data transmission *)

(** A transmission prints one line, and the line reports success exactly
    when the status code of the response is 200: every other code, also 201
    or 204, is reported as a failure. *)
Theorem send_to_cloud_success_iff_200
  (requests_post : string -> ev_data -> Z) (ev : ev_data) (out : stdout) :
  exists l : line,
    send_to_cloud requests_post ev out = (Return tt, out ++ [l])
    /\ (l = sent_line (ev_id ev)
        <-> requests_post "https://your-cloud-api.com/data" ev = 200)
    /\ (l = failed_line (ev_id ev)
        <-> requests_post "https://your-cloud-api.com/data" ev <> 200).
Proof.
  unfold send_to_cloud, print, sent_line, failed_line.
  destruct (Z.eqb_spec (requests_post "https://your-cloud-api.com/data" ev) 200)
    as [Hok|Hko]; eexists; (split; [reflexivity|]); split; split;
    first [ intros _; assumption | intros _; reflexivity
          | intros H; discriminate H | intros H; contradiction ].
Qed.

(** ** The mean and the order of the additions *)

Lemma float_of_int_binary64 (z : Z) :
  PyNum.float_of_int z = SF2Prim (binary64_of_int z).
Proof. reflexivity. Qed.

Lemma percentages_levels (batch : list ev_data) :
  percentages batch ->
  Forall (fun z => 0 <= z) (map battery_level batch).
Proof.
  intros [Hall _]. induction Hall as [|ev batch Hev _ IH]; simpl;
    constructor; [lia | exact IH].
Qed.

Lemma foldr_add_zeros (k : nat) (l : list Z) :
  foldr Z.add 0 (repeat 0 k ++ l) = foldr Z.add 0 l.
Proof. induction k as [|k IH]; simpl; [reflexivity | exact IH]. Qed.

Lemma Forall_nonneg_zeros (k : nat) (l : list Z) :
  Forall (fun z => 0 <= z) l -> Forall (fun z => 0 <= z) (repeat 0 k ++ l).
Proof.
  intros Hl. induction k as [|k IH]; simpl; [exact Hl|].
  constructor; [lia | exact IH].
Qed.

(** On a batch of battery percentages the mean that is reported does not
    depend on the order in which the levels are added up in binary64: in
    whatever order and grouping the additions are made, and with however many
    accumulators that start at zero, no addition rounds, and the mean is
    that sum divided by the count. *)
Theorem mean_whatever_the_summation_order (batch : list ev_data)
  (s : summation) (zeros : nat) (out : stdout) :
  batch <> [] ->
  percentages batch ->
  Permutation (entries s) (repeat 0 zeros ++ map battery_level batch) ->
  exists rest : stdout,
    continuous_improvement (pd_DataFrame batch) out
    = (Return tt,
       out ++ AverageBatteryLevel
                (PrimFloat.div (SF2Prim (binary64_sum s))
                   (PyNum.float_of_int (Z.of_nat (length batch))))
           :: rest).
Proof.
  intros Hne Hrange Hperm.
  assert (Hsum : binary64_sum s
                 = binary64_of_int (foldr Z.add 0 (map battery_level batch))).
  { rewrite <- (foldr_add_zeros zeros).
    rewrite <- (Binary64.foldr_add_Permutation _ _ Hperm).
    apply Binary64.binary64_sum_exact.
    - rewrite Hperm. apply Forall_nonneg_zeros, percentages_levels, Hrange.
    - rewrite (Binary64.foldr_add_Permutation _ _ Hperm), foldr_add_zeros.
      apply Hrange. }
  rewrite continuous_improvement_batch by exact Hne.
  unfold report.
  rewrite series_mean_nonempty by (destruct batch; [congruence | discriminate]).
  unfold arithmetic_mean.
  rewrite length_map, (float_of_int_binary64 (foldr Z.add 0 _)), <- Hsum.
  eexists. reflexivity.
Qed.

Lemma mean_whatever_the_summation_order_witness :
  batch_mixed <> []
  /\ percentages batch_mixed
  /\ Permutation (entries sum_mixed)
       (repeat 0 1 ++ map battery_level batch_mixed)
  /\ SF2Prim (binary64_sum sum_mixed) = 102%float
  /\ exists rest : stdout,
       continuous_improvement (pd_DataFrame batch_mixed) []
       = (Return tt, AverageBatteryLevel 25.5 :: rest).
Proof.
  assert (Hrange : percentages batch_mixed)
    by (split; [repeat constructor; discriminate | reflexivity]).
  assert (Hperm : Permutation (entries sum_mixed)
                    (repeat 0 1 ++ map battery_level batch_mixed)).
  { apply (Permutation_cons_app [0; 15; 64] [20]).
    apply (Permutation_cons_app [0; 15] [20]).
    apply (Permutation_cons_app [] [15; 20]).
    apply perm_swap. }
  split; [discriminate|]. split; [exact Hrange|]. split; [exact Hperm|].
  split; [reflexivity|].
  destruct (mean_whatever_the_summation_order batch_mixed sum_mixed 1 []
              ltac:(discriminate) Hrange Hperm) as [rest Hrun].
  exists rest. exact Hrun.
Defined.

(** ** The mean as a quotient of ints *)

(** On a non-empty batch of battery percentages the mean that is reported is
    what Python's [sum(levels) / len(levels)] gives on the ints: the exact
    sum of the levels divided by their number, rounded once to binary64. *)
Theorem mean_is_sum_over_count (batch : list ev_data) (out : stdout) :
  batch <> [] ->
  percentages batch ->
  Z.of_nat (length batch) < 2 ^ 53 ->
  exists (mean : float) (rest : stdout),
    int_truediv (foldr Z.add 0 (map battery_level batch))
                (Z.of_nat (length batch))
    = Return mean
    /\ continuous_improvement (pd_DataFrame batch) out
       = (Return tt, out ++ AverageBatteryLevel mean :: rest).
Proof.
  intros Hne Hrange Hcount.
  set (total := foldr Z.add 0 (map battery_level batch)).
  set (count := Z.of_nat (length batch)).
  assert (Htotal : 0 <= total < 2 ^ 53).
  { split; [|apply Hrange].
    apply Binary64.foldr_add_nonneg, percentages_levels, Hrange. }
  assert (Hpos : 0 < count) by (subst count; destruct batch; [congruence | simpl; lia]).
  exists (SF2Prim (PyNum.nearest_quotient total count)). eexists. split.
  - rewrite int_truediv_nonzero by lia.
    assert (Hfin : PyNum.is_infinity (PyNum.nearest_quotient total count)
                   = false).
    { apply Binary64.nearest_quotient_in_range; [lia|].
      apply Z.lt_trans with (2 ^ 53); [lia | reflexivity]. }
    destruct (PyNum.nearest_quotient total count);
      first [reflexivity | discriminate Hfin].
  - rewrite continuous_improvement_batch by exact Hne.
    unfold report.
    rewrite series_mean_nonempty by (destruct batch; [congruence | discriminate]).
    unfold arithmetic_mean. rewrite length_map. fold total count.
    rewrite !float_of_int_binary64.
    rewrite Binary64.div_SF2Prim
      by (apply Binary64.binary64_of_int_valid; lia).
    rewrite Binary64.SFdiv_binary64_of_int by lia.
    reflexivity.
Qed.

Lemma mean_is_sum_over_count_witness :
  batch_mixed <> []
  /\ percentages batch_mixed
  /\ Z.of_nat (length batch_mixed) < 2 ^ 53
  /\ int_truediv 102 4 = Return 25.5%float
  /\ exists rest : stdout,
       continuous_improvement (pd_DataFrame batch_mixed) []
       = (Return tt, AverageBatteryLevel 25.5 :: rest).
Proof.
  assert (Hrange : percentages batch_mixed)
    by (split; [repeat constructor; discriminate | reflexivity]).
  split; [discriminate|]. split; [exact Hrange|].
  split; [reflexivity|]. split; [reflexivity|].
  destruct (mean_is_sum_over_count batch_mixed [] ltac:(discriminate) Hrange
              eq_refl) as (mean & rest & Hdiv & Hrun).
  assert (H : Return mean = Return 25.5%float) by (rewrite <- Hdiv; reflexivity).
  injection H as H. subst mean.
  exists rest. exact Hrun.
Defined.
